(** * tailwind.config.js: the design-token table and its utility plugin

    The module exports one object literal: the scan globs, the dark-mode
    strategy, the theme extension (colors, typography, spacing, radii,
    shadows, transitions, z-index layers) and one plugin function that
    registers three transition utilities.  The literal is embedded as a
    tree of JavaScript values; the plugin is embedded as a function over
    the state of its host. *)

From Stdlib Require Import ZArith QArith Ascii String List Bool Sorted Lia.
From stdpp Require Import gmap strings list fin_maps.

Open Scope string_scope.
Open Scope list_scope.

(** ** JavaScript values *)

(** The values an object literal of this file can denote: strings, arrays,
    objects and function values.  An object keeps its properties in the
    order of the literal; a numeric property name such as [50] is the
    property key ["50"].  [F] is the type the function values are drawn
    from. *)
#[warnings="-register-all"]
Inductive value (F : Type) : Type :=
| VStr (s : string)
| VArr (items : list (value F))
| VObj (fields : list (string * value F))
| VFun (f : F).

Arguments VStr {F} s.
Arguments VArr {F} items.
Arguments VObj {F} fields.
Arguments VFun {F} f.

(** Plain data: values without function values. *)
Abbreviation data := (value Empty_set).

(** Induction over a value together with the values nested in it. *)
Section ValueInd.
Context {F : Type} (P : value F → Prop).
Hypothesis HStr : ∀ s, P (VStr s).
Hypothesis HArr : ∀ items, Forall P items → P (VArr items).
Hypothesis HObj : ∀ fields, Forall (λ kv, P kv.2) fields → P (VObj fields).
Hypothesis HFun : ∀ f, P (VFun f).

Fixpoint value_nested_ind (v : value F) : P v :=
  match v with
  | VStr s => HStr s
  | VArr items =>
      HArr items
        ((fix go (l : list (value F)) : Forall P l :=
            match l with
            | [] => List.Forall_nil _
            | x :: l' => List.Forall_cons _ _ _ (value_nested_ind x) (go l')
            end) items)
  | VObj fields =>
      HObj fields
        ((fix go (l : list (string * value F)) : Forall (λ kv, P kv.2) l :=
            match l with
            | [] => List.Forall_nil _
            | kv :: l' =>
                List.Forall_cons _ _ _ (value_nested_ind kv.2) (go l')
            end) fields)
  | VFun f => HFun f
  end.
End ValueInd.

(** ** Property access *)

(** [o[k]] on the properties of an object literal: when a literal repeats
    a key, the later definition is the one the object holds. *)
Fixpoint get_field {F} (k : string) (fields : list (string * value F))
  : option (value F) :=
  match fields with
  | [] => None
  | (k', v) :: rest =>
      match get_field k rest with
      | Some v' => Some v'
      | None => if String.eqb k k' then Some v else None
      end
  end.

(** [v[k]]: defined on objects only. *)
Definition get {F} (k : string) (v : value F) : option (value F) :=
  match v with
  | VObj fields => get_field k fields
  | _ => None
  end.

(** The property names of an object, in the order of the literal.
    (JavaScript enumerates integer-like names before the others; the
    properties below that read a list of names do not depend on it.) *)
Definition keys {F} (v : value F) : list string :=
  match v with
  | VObj fields => fields.*1
  | _ => []
  end.

(** The property values of an object, in the order of the literal. *)
Definition vals {F} (v : value F) : list (value F) :=
  match v with
  | VObj fields => fields.*2
  | _ => []
  end.

(** The properties of an object as (name, value) pairs. *)
Definition entries {F} (v : value F) : list (string * value F) :=
  match v with
  | VObj fields => fields
  | _ => []
  end.

(** The set of property names of an object. *)
Definition key_set {F} (v : value F) : gset string := list_to_set (keys v).

Definition is_object {F} (v : value F) : bool :=
  match v with VObj _ => true | _ => false end.

Definition is_string {F} (v : value F) : bool :=
  match v with VStr _ => true | _ => false end.

(** A CSS declaration object: an object whose properties hold strings. *)
Definition is_declaration {F} (v : value F) : bool :=
  match v with
  | VObj fields => forallb (λ kv, is_string kv.2) fields
  | _ => false
  end.

(** ** The plugin interface *)

(** The argument a plugin receives from its host.  The plugin of this file
    destructures one member of it, [addUtilities], a procedure of the host:
    it takes a mapping of class names to declarations and acts on the
    state [S] of the host. *)
Record PluginApi (S : Type) : Type := {
  addUtilities : data → S → S
}.
Arguments addUtilities {S} _ _ _.

(** A plugin is a procedure over the state of whichever host runs it. *)
Definition Plugin : Type := ∀ S : Type, PluginApi S → S → S.

(** A value of the configuration: its function values are plugins. *)
Abbreviation jsval := (value Plugin).

(** ** The exported configuration *)

(** [content]: the files the generator scans for class names. *)
Definition content : jsval :=
  VArr [
    VStr "./pages/**/*.{html,js}";
    VStr "./components/**/*.{html,js}";
    VStr "./index.html";
    VStr "./*.html"
  ].

Definition darkMode : jsval := VStr "class".

(** [theme.extend.colors]: color families (nested objects) and flat color
    tokens (strings). *)
Definition colors : jsval :=
  VObj [
    ("primary", VObj [
      ("DEFAULT", VStr "#2563EB");
      ("50", VStr "#EFF6FF");
      ("100", VStr "#DBEAFE");
      ("200", VStr "#BFDBFE");
      ("300", VStr "#93C5FD");
      ("400", VStr "#60A5FA");
      ("500", VStr "#3B82F6");
      ("600", VStr "#2563EB");
      ("700", VStr "#1D4ED8");
      ("800", VStr "#1E40AF");
      ("900", VStr "#1E3A8A");
      ("foreground", VStr "#FFFFFF")
    ]);
    ("secondary", VObj [
      ("DEFAULT", VStr "#64748B");
      ("50", VStr "#F8FAFC");
      ("100", VStr "#F1F5F9");
      ("200", VStr "#E2E8F0");
      ("300", VStr "#CBD5E1");
      ("400", VStr "#94A3B8");
      ("500", VStr "#64748B");
      ("600", VStr "#475569");
      ("700", VStr "#334155");
      ("800", VStr "#1E293B");
      ("900", VStr "#0F172A");
      ("foreground", VStr "#FFFFFF")
    ]);
    ("accent", VObj [
      ("DEFAULT", VStr "#F59E0B");
      ("50", VStr "#FFFBEB");
      ("100", VStr "#FEF3C7");
      ("200", VStr "#FDE68A");
      ("300", VStr "#FCD34D");
      ("400", VStr "#FBBF24");
      ("500", VStr "#F59E0B");
      ("600", VStr "#D97706");
      ("700", VStr "#B45309");
      ("800", VStr "#92400E");
      ("900", VStr "#78350F");
      ("foreground", VStr "#1F2937")
    ]);
    ("background", VObj [
      ("DEFAULT", VStr "#FAFAFA");
      ("foreground", VStr "#1F2937")
    ]);
    ("surface", VObj [
      ("DEFAULT", VStr "#FFFFFF");
      ("foreground", VStr "#374151");
      ("hover", VStr "#F9FAFB");
      ("active", VStr "#F3F4F6")
    ]);
    ("text-primary", VStr "#1F2937");
    ("text-secondary", VStr "#6B7280");
    ("text-tertiary", VStr "#9CA3AF");
    ("text-disabled", VStr "#D1D5DB");
    ("success", VObj [
      ("DEFAULT", VStr "#059669");
      ("50", VStr "#ECFDF5");
      ("100", VStr "#D1FAE5");
      ("200", VStr "#A7F3D0");
      ("300", VStr "#6EE7B7");
      ("400", VStr "#34D399");
      ("500", VStr "#10B981");
      ("600", VStr "#059669");
      ("700", VStr "#047857");
      ("800", VStr "#065F46");
      ("900", VStr "#064E3B");
      ("foreground", VStr "#FFFFFF")
    ]);
    ("warning", VObj [
      ("DEFAULT", VStr "#D97706");
      ("50", VStr "#FFFBEB");
      ("100", VStr "#FEF3C7");
      ("200", VStr "#FDE68A");
      ("300", VStr "#FCD34D");
      ("400", VStr "#FBBF24");
      ("500", VStr "#F59E0B");
      ("600", VStr "#D97706");
      ("700", VStr "#B45309");
      ("800", VStr "#92400E");
      ("900", VStr "#78350F");
      ("foreground", VStr "#FFFFFF")
    ]);
    ("error", VObj [
      ("DEFAULT", VStr "#DC2626");
      ("50", VStr "#FEF2F2");
      ("100", VStr "#FEE2E2");
      ("200", VStr "#FECACA");
      ("300", VStr "#FCA5A5");
      ("400", VStr "#F87171");
      ("500", VStr "#EF4444");
      ("600", VStr "#DC2626");
      ("700", VStr "#B91C1C");
      ("800", VStr "#991B1B");
      ("900", VStr "#7F1D1D");
      ("foreground", VStr "#FFFFFF")
    ]);
    ("border", VObj [
      ("DEFAULT", VStr "rgba(0, 0, 0, 0.08)");
      ("light", VStr "rgba(0, 0, 0, 0.04)");
      ("strong", VStr "rgba(0, 0, 0, 0.12)")
    ])
  ].

Definition fontFamily : jsval :=
  VObj [
    ("heading", VArr [VStr "Inter"; VStr "sans-serif"]);
    ("body", VArr [VStr "Source Sans Pro"; VStr "sans-serif"]);
    ("caption", VArr [VStr "IBM Plex Sans"; VStr "sans-serif"]);
    ("mono", VArr [VStr "JetBrains Mono"; VStr "monospace"])
  ].

Definition fontSize : jsval :=
  VObj [
    ("xs", VArr [VStr "0.875rem"; VObj [("lineHeight", VStr "1.4")]]);
    ("sm", VArr [VStr "0.9375rem"; VObj [("lineHeight", VStr "1.6")]]);
    ("base", VArr [VStr "1rem"; VObj [("lineHeight", VStr "1.6")]]);
    ("lg", VArr [VStr "1.125rem"; VObj [("lineHeight", VStr "1.5")]]);
    ("xl", VArr [VStr "1.25rem"; VObj [("lineHeight", VStr "1.4")]]);
    ("2xl", VArr [VStr "1.5rem"; VObj [("lineHeight", VStr "1.3")]]);
    ("3xl", VArr [VStr "1.875rem"; VObj [("lineHeight", VStr "1.25")]]);
    ("4xl", VArr [VStr "2.25rem"; VObj [("lineHeight", VStr "1.2")]])
  ].

Definition spacing : jsval :=
  VObj [
    ("1", VStr "0.5rem");
    ("2", VStr "1rem");
    ("3", VStr "1.5rem");
    ("4", VStr "2rem");
    ("6", VStr "3rem");
    ("8", VStr "4rem");
    ("12", VStr "6rem")
  ].

Definition borderRadius : jsval :=
  VObj [
    ("sm", VStr "0.375rem");
    ("base", VStr "0.75rem");
    ("md", VStr "1.125rem");
    ("lg", VStr "1.5rem");
    ("xl", VStr "0.75rem")
  ].

Definition boxShadow : jsval :=
  VObj [
    ("sm", VStr "0 2px 4px rgba(0, 0, 0, 0.08)");
    ("base", VStr "0 4px 8px rgba(0, 0, 0, 0.1)");
    ("md", VStr "0 6px 12px rgba(0, 0, 0, 0.12)");
    ("lg", VStr "0 12px 24px rgba(0, 0, 0, 0.15)");
    ("xl", VStr "0 20px 40px -8px rgba(0, 0, 0, 0.15)")
  ].

Definition transitionDuration : jsval :=
  VObj [
    ("250", VStr "250ms");
    ("350", VStr "350ms")
  ].

Definition transitionTimingFunction : jsval :=
  VObj [
    ("out", VStr "cubic-bezier(0.4, 0, 0.2, 1)")
  ].

Definition zIndex : jsval :=
  VObj [
    ("base", VStr "0");
    ("card", VStr "1");
    ("dropdown", VStr "50");
    ("navigation", VStr "100");
    ("modal", VStr "200");
    ("toast", VStr "300")
  ].

Definition ringWidth : jsval := VObj [("3", VStr "3px")].
Definition ringOffsetWidth : jsval := VObj [("2", VStr "2px")].
Definition minWidth : jsval := VObj [("44", VStr "44px")].
Definition minHeight : jsval := VObj [("44", VStr "44px")].
Definition maxWidth : jsval := VObj [("measure", VStr "70ch")].
Definition letterSpacing : jsval := VObj [("caption", VStr "0.025em")].

Definition extend : jsval :=
  VObj [
    ("colors", colors);
    ("fontFamily", fontFamily);
    ("fontSize", fontSize);
    ("spacing", spacing);
    ("borderRadius", borderRadius);
    ("boxShadow", boxShadow);
    ("transitionDuration", transitionDuration);
    ("transitionTimingFunction", transitionTimingFunction);
    ("zIndex", zIndex);
    ("ringWidth", ringWidth);
    ("ringOffsetWidth", ringOffsetWidth);
    ("minWidth", minWidth);
    ("minHeight", minHeight);
    ("maxWidth", maxWidth);
    ("letterSpacing", letterSpacing)
  ].

Definition theme : jsval := VObj [("extend", extend)].

(** The object the plugin builds on every call and hands to the host. *)
Definition newUtilities : data :=
  VObj [
    (".transition-base", VObj [
      ("transition", VStr "all 250ms cubic-bezier(0.4, 0, 0.2, 1)")
    ]);
    (".transition-fast", VObj [
      ("transition", VStr "all 150ms cubic-bezier(0.4, 0, 0.2, 1)")
    ]);
    (".transition-slow", VObj [
      ("transition", VStr "all 350ms cubic-bezier(0.4, 0, 0.2, 1)")
    ])
  ].

(** [plugins[0]]: [function({ addUtilities }) { ...; addUtilities(newUtilities) }].
    The parameter is destructured for its [addUtilities] member, which is
    then called on the freshly built object; the function returns nothing,
    so its whole effect is the host's state after that call. *)
Definition plugin_0 : Plugin :=
  λ S api,
    let '{| addUtilities := addUtilities |} := api in
    λ s, addUtilities newUtilities s.

Definition plugins : jsval := VArr [VFun plugin_0].

(** [module.exports]. *)
Definition module_exports : jsval :=
  VObj [
    ("content", content);
    ("darkMode", darkMode);
    ("theme", theme);
    ("plugins", plugins)
  ].

(** ** Reading the token strings *)

(** The tokens of the table are strings; what the properties below say
    about them (a number, a length, a color, a duration) is read off the
    text of each string by the functions of this section. *)

Definition is_digit (c : ascii) : bool :=
  let n := N_of_ascii c in ((48 <=? n) && (n <=? 57))%N.

Definition is_hex_digit (c : ascii) : bool :=
  let n := N_of_ascii c in
  (((48 <=? n) && (n <=? 57)) || ((65 <=? n) && (n <=? 70))
   || ((97 <=? n) && (n <=? 102)))%N.

Definition digit_value (c : ascii) : Z := Z.of_N (N_of_ascii c) - 48.

Fixpoint string_forallb (p : ascii → bool) (s : string) : bool :=
  match s with
  | EmptyString => true
  | String c s' => p c && string_forallb p s'
  end.

(** Digits read left to right onto the accumulator [acc]. *)
Fixpoint parse_digits (acc : Z) (s : string) : option Z :=
  match s with
  | EmptyString => Some acc
  | String c s' =>
      if is_digit c then parse_digits (10 * acc + digit_value c) s' else None
  end.

(** A non-empty run of decimal digits. *)
Definition parse_nat (s : string) : option Z :=
  match s with
  | EmptyString => None
  | _ => parse_digits 0 s
  end.

(** An integer: digits with an optional minus sign in front. *)
Definition parse_int (s : string) : option Z :=
  match s with
  | String "-" s' => Z.opp <$> parse_nat s'
  | _ => parse_nat s
  end.

(** [s.split(c)]: the pieces of [s] between the occurrences of [c]. *)
Fixpoint split_on (c : ascii) (s : string) : list string :=
  match s with
  | EmptyString => [EmptyString]
  | String a s' =>
      if Ascii.eqb a c then EmptyString :: split_on c s'
      else match split_on c s' with
           | piece :: pieces => String a piece :: pieces
           | [] => [String a EmptyString]
           end
  end.

(** A decimal numeral, [digits] or [digits.digits], as a rational. *)
Definition parse_decimal (s : string) : option Q :=
  match split_on "." s with
  | [whole] => inject_Z <$> parse_nat whole
  | [whole; frac] =>
      n ← parse_nat whole;
      m ← parse_nat frac;
      let scale := (10 ^ Z.of_nat (String.length frac))%Z in
      Some (Qmake (n * scale + m) (Z.to_pos scale))
  | _ => None
  end.

(** The numeral a string starts with, and what follows it. *)
Fixpoint span_numeral (s : string) : string * string :=
  match s with
  | EmptyString => (EmptyString, EmptyString)
  | String c s' =>
      if is_digit c || Ascii.eqb c "."
      then let '(num, rest) := span_numeral s' in (String c num, rest)
      else (EmptyString, s)
  end.

(** A dimension: a decimal numeral followed by its unit (possibly empty). *)
Definition parse_dimension (s : string) : option (Q * string) :=
  let '(num, unit) := span_numeral s in
  q ← parse_decimal num; Some (q, unit).

(** A length in the unit [unit]. *)
Definition parse_length_in (unit : string) (s : string) : option Q :=
  '(q, u) ← parse_dimension s;
  if String.eqb u unit then Some q else None.

Definition parse_rem : string → option Q := parse_length_in "rem".

(** A duration in whole milliseconds: digits followed by [ms]. *)
Definition parse_ms (s : string) : option Z :=
  let '(num, unit) := span_numeral s in
  if String.eqb unit "ms" then parse_nat num else None.

(** Leading blanks removed. *)
Fixpoint ltrim (s : string) : string :=
  match s with
  | String " " s' => ltrim s'
  | _ => s
  end.

(** [prefix] removed from the front of [s], when [s] starts with it. *)
Fixpoint strip_prefix (prefix s : string) : option string :=
  match prefix, s with
  | EmptyString, _ => Some s
  | String a p', String b s' =>
      if Ascii.eqb a b then strip_prefix p' s' else None
  | String _ _, EmptyString => None
  end.

(** [suffix] removed from the end of [s], when [s] ends with it. *)
Fixpoint strip_suffix (suffix s : string) : option string :=
  if String.eqb s suffix then Some EmptyString
  else match s with
       | EmptyString => None
       | String c s' => String c <$> strip_suffix suffix s'
       end.

(** A hexadecimal color: [#] and 3, 4, 6 or 8 hexadecimal digits. *)
Definition is_hex_color (s : string) : bool :=
  match s with
  | String "#" h =>
      string_forallb is_hex_digit h
      && bool_decide (String.length h ∈ [3; 4; 6; 8]%nat)
  | _ => false
  end.

(** A functional color [rgba(r, g, b, a)] or [rgb(r, g, b)]: the
    arguments are decimal numerals separated by commas. *)
Definition is_rgb_color (s : string) : bool :=
  let numerals args :=
    forallb (λ a, bool_decide (is_Some (parse_decimal (ltrim a))))
            (split_on "," args) in
  match strip_prefix "rgba(" s ≫= strip_suffix ")" with
  | Some args =>
      numerals args && bool_decide (length (split_on "," args) = 4%nat)
  | None =>
      match strip_prefix "rgb(" s ≫= strip_suffix ")" with
      | Some args =>
          numerals args && bool_decide (length (split_on "," args) = 3%nat)
      | None => false
      end
  end.

(** The color notations of the table: hexadecimal and functional. *)
Definition is_css_color (s : string) : bool :=
  is_hex_color s || is_rgb_color s.

Definition is_color_value {F} (v : value F) : bool :=
  match v with
  | VStr s => is_css_color s
  | _ => false
  end.

(** ** Looking tokens up *)

(** [v.k1.k2...]: property access along a path. *)
Fixpoint get_path {F} (path : list string) (v : value F) : option (value F) :=
  match path with
  | [] => Some v
  | k :: path' => get k v ≫= get_path path'
  end.

(** The string a value holds, when it is a string. *)
Definition as_string {F} (v : value F) : option string :=
  match v with
  | VStr s => Some s
  | _ => None
  end.

(** The strings an array holds, when it is an array of strings. *)
Definition as_strings {F} (v : value F) : option (list string) :=
  match v with
  | VArr items => mapM as_string items
  | _ => None
  end.

(** A token read as a length in rem. *)
Definition rem_length {F} (v : value F) : option Q :=
  as_string v ≫= parse_rem.

(** A token read as an integer. *)
Definition int_value {F} (v : value F) : option Z :=
  as_string v ≫= parse_int.

(** A scale whose keys are integers and whose values are lengths in rem,
    read entry by entry in the order of the literal. *)
Definition rem_scale {F} (v : value F) : option (list (Z * Q)) :=
  mapM (λ kv : string * value F,
          n ← parse_int kv.1; l ← rem_length kv.2; Some (n, l))
       (entries v).

(** Insertion of an entry into a scale sorted by ascending key. *)
Fixpoint insert_by_key (e : Z * Q) (scale : list (Z * Q)) : list (Z * Q) :=
  match scale with
  | [] => [e]
  | e' :: rest =>
      if (e.1 <=? e'.1)%Z then e :: scale else e' :: insert_by_key e rest
  end.

(** A scale sorted by ascending numeric key. *)
Definition sort_by_key (scale : list (Z * Q)) : list (Z * Q) :=
  foldr insert_by_key [] scale.

(** The durations, in milliseconds, that the duration scale declares. *)
Definition declared_durations : list Z :=
  omap (λ v : jsval, as_string v ≫= parse_ms) (vals transitionDuration).

(** The durations, in milliseconds, that occur in the value of a
    [transition] declaration: its blank-separated parts that read as a
    time in ms. *)
Definition durations_in (transition : string) : list Z :=
  omap parse_ms (split_on " " transition).

(** The keys of a full color family: the default, the shades 50 to 900
    and the foreground. *)
Definition shade_keys : gset string :=
  {[ "DEFAULT"; "50"; "100"; "200"; "300"; "400"; "500"; "600"; "700";
     "800"; "900"; "foreground" ]}.

(** The color families: the entries of [colors] that are nested objects. *)
Definition color_families : list (string * jsval) :=
  filter (λ kv, is_object kv.2 = true) (entries colors).

(** ** Running the plugin *)

(** A host that only records the calls made to [addUtilities]: its state
    is the list of the arguments received so far. *)
Definition recorder : PluginApi (list data) :=
  {| addUtilities := λ utilities calls, calls ++ [utilities] |}.

(** A host whose [addUtilities] is the procedure [handler], instrumented
    with the record of the calls made to it. *)
Definition traced {S} (handler : data → S → S) : PluginApi (S * list data) :=
  {| addUtilities := λ utilities st,
       (handler utilities st.1, st.2 ++ [utilities]) |}.

(** What the plugins of a configuration register: every function value
    of its [plugins] array is run against the recording host, in order. *)
Definition registrations (config : jsval) : list data :=
  match get "plugins" config with
  | Some (VArr items) =>
      foldl (λ (calls : list data) (item : jsval),
               match item with
               | VFun plugin => plugin (list data) recorder calls
               | _ => calls
               end) [] items
  | _ => []
  end.

(** The (class name, declaration) pairs the configuration registers. *)
Definition registered_utilities : list (string * data) :=
  registrations module_exports ≫= entries.

(** A registered utility resolves to exactly one [transition] declaration
    whose duration is one of the declared scale. *)
Definition resolves_in_scale (decl : data) : Prop :=
  ∃ (t : string) (d : Z),
    decl = VObj [("transition", VStr t)]
    ∧ durations_in t = [d]
    ∧ d ∈ declared_durations.

(** A registered utility resolves to exactly one [transition] declaration
    with the single duration [d]. *)
Definition one_transition (decl : data) (d : Z) : Prop :=
  ∃ t : string,
    decl = VObj [("transition", VStr t)] ∧ durations_in t = [d].

(** A color family with exactly the shade keys and only color values. *)
Definition full_family (fam : jsval) : Prop :=
  key_set fam = shade_keys ∧ Forall (λ v, is_color_value v = true) (vals fam).

(** ** Glob patterns *)

(** The parts of a glob pattern, for the syntax the patterns of [content]
    use: a literal character, [*] (any run of characters within one path
    segment), a double star followed by a slash (any number of
    directories, possibly none) and a brace group of comma-separated
    alternatives. *)
Inductive glob_part : Type :=
| GLit (c : ascii)
| GStar
| GDirs
| GAlt (alternatives : list string).

(** Reading a pattern into its parts.  [group] is [None] outside a brace
    group; inside one it holds the alternatives completed so far and the
    alternative being read.  A group that is never closed matches
    nothing. *)
Fixpoint glob_parts_from (group : option (list string * string)) (s : string)
  : list glob_part :=
  match group, s with
  | None, EmptyString => []
  | None, String "*" (String "*" (String "/" s')) =>
      GDirs :: glob_parts_from None s'
  | None, String "*" s' => GStar :: glob_parts_from None s'
  | None, String "{" s' => glob_parts_from (Some ([], EmptyString)) s'
  | None, String c s' => GLit c :: glob_parts_from None s'
  | Some _, EmptyString => [GAlt []]
  | Some (alts, cur), String "}" s' =>
      GAlt (alts ++ [cur]) :: glob_parts_from None s'
  | Some (alts, cur), String "," s' =>
      glob_parts_from (Some (alts ++ [cur], EmptyString)) s'
  | Some (alts, cur), String c s' =>
      glob_parts_from (Some (alts, (cur +:+ String c EmptyString)%string)) s'
  end.

(** A path relative to the project root, without its leading [./]. *)
Definition unrooted (s : string) : string :=
  match strip_prefix "./" s with
  | Some s' => s'
  | None => s
  end.

Definition glob_parts (pattern : string) : list glob_part :=
  glob_parts_from None (unrooted pattern).

(** Whether the whole of a path is matched by a sequence of parts. *)
Fixpoint parts_match (parts : list glob_part) : string → bool :=
  match parts with
  | [] => λ path, String.eqb path EmptyString
  | GLit c :: parts' =>
      λ path,
        match path with
        | String a path' => Ascii.eqb a c && parts_match parts' path'
        | EmptyString => false
        end
  | GStar :: parts' =>
      fix star (path : string) : bool :=
        parts_match parts' path
        || match path with
           | String a path' => negb (Ascii.eqb a "/") && star path'
           | EmptyString => false
           end
  | GDirs :: parts' =>
      λ path,
        parts_match parts' path
        || (fix dirs (path : string) : bool :=
              match path with
              | String a path' =>
                  (Ascii.eqb a "/" && parts_match parts' path') || dirs path'
              | EmptyString => false
              end) path
  | GAlt alternatives :: parts' =>
      λ path,
        existsb (λ alt,
                   match strip_prefix alt path with
                   | Some path' => parts_match parts' path'
                   | None => false
                   end) alternatives
  end.

(** Whether a glob pattern matches a file path of the project. *)
Definition glob_match (pattern path : string) : bool :=
  parts_match (glob_parts pattern) (unrooted path).

(** ** Evaluating the literal *)

(** Evaluating an object literal, an array literal or a function
    expression creates a new object in the store each time it is
    evaluated; a string literal denotes the string itself.  The run-time
    value of an expression is therefore a string or a reference into the
    store. *)
Definition loc : Type := nat.

Inductive ref : Type :=
| RStr (s : string)
| RLoc (l : loc).

(** An object of the store: an array, a plain object or a function. *)
Inductive cell (F : Type) : Type :=
| CArr (items : list ref)
| CObj (fields : list (string * ref))
| CFun (f : F).

Arguments CArr {F} items.
Arguments CObj {F} fields.
Arguments CFun {F} f.

(** A new object: it gets a location the store does not use yet. *)
Definition alloc {F} (c : cell F) (h : gmap loc (cell F))
  : ref * gmap loc (cell F) :=
  let l := fresh (dom h) in (RLoc l, <[l := c]> h).

(** The members of a literal are evaluated from left to right, each in
    the store the previous one left. *)
Definition eval_list {A R C} (ev : A → gmap loc C → R * gmap loc C)
  : list A → gmap loc C → list R * gmap loc C :=
  fix go (xs : list A) (h : gmap loc C) : list R * gmap loc C :=
    match xs with
    | [] => ([], h)
    | x :: xs' =>
        let '(r, h1) := ev x h in
        let '(rs, h2) := go xs' h1 in
        (r :: rs, h2)
    end.

(** Evaluation of a literal in a store: the run-time value and the store
    it leaves.  The members of an array or object literal are evaluated
    before the object that holds them is placed in the store; which
    location an object gets is not observable, values are compared
    through [reify]. *)
Fixpoint eval {F} (v : value F) (h : gmap loc (cell F))
  : ref * gmap loc (cell F) :=
  match v with
  | VStr s => (RStr s, h)
  | VArr items =>
      let '(rs, h') := eval_list eval items h in
      alloc (CArr rs) h'
  | VObj fields =>
      let '(rs, h') :=
        eval_list (λ (kv : string * value F) h0,
                     let '(k, x) := kv in
                     let '(r, h1) := eval x h0 in ((k, r), h1))
                  fields h in
      alloc (CObj rs) h'
  | VFun f => alloc (CFun f) h
  end.

(** The structure a run-time value stands for in a store: references are
    followed, at most [fuel] deep. *)
Fixpoint reify {F} (fuel : nat) (h : gmap loc (cell F)) (r : ref)
  : option (value F) :=
  match r with
  | RStr s => Some (VStr s)
  | RLoc l =>
      match fuel with
      | O => None
      | S fuel' =>
          match h !! l with
          | Some (CArr rs) => VArr <$> mapM (reify fuel' h) rs
          | Some (CObj fs) =>
              VObj <$> mapM (λ kr : string * ref,
                               pair kr.1 <$> reify fuel' h kr.2) fs
          | Some (CFun f) => Some (VFun f)
          | None => None
          end
      end
  end.

(** How deep the objects of a value nest. *)
Fixpoint depth {F} (v : value F) : nat :=
  match v with
  | VStr _ => O
  | VArr items => S (foldr (λ x d, depth x `max` d) O items)
  | VObj fields => S (foldr (λ kv d, depth kv.2 `max` d) O fields)
  | VFun _ => 1
  end.

(** ** The rest of the table *)


(** The numbered shades of a color family. *)
Definition shade_numbers : list string :=
  ["50"; "100"; "200"; "300"; "400"; "500"; "600"; "700"; "800"; "900"].

(** The length an entry of a scale declares: a font size is the pair
    [[size, options]], any other entry is the length itself. *)
Definition length_of {F} (v : value F) : option Q :=
  match v with
  | VArr (size :: _) => rem_length size
  | _ => rem_length v
  end.

(** The pixel equivalents the comments of the file give beside the rem
    lengths of [fontSize], [spacing] and [borderRadius]: table, key and
    pixels. *)
Definition documented_px : list (string * string * Z) :=
  [ ("fontSize", "xs", 14); ("fontSize", "sm", 15); ("fontSize", "base", 16);
    ("fontSize", "lg", 18); ("fontSize", "xl", 20); ("fontSize", "2xl", 24);
    ("fontSize", "3xl", 30); ("fontSize", "4xl", 36);
    ("spacing", "1", 8); ("spacing", "2", 16); ("spacing", "3", 24);
    ("spacing", "4", 32); ("spacing", "6", 48); ("spacing", "8", 64);
    ("spacing", "12", 96);
    ("borderRadius", "sm", 6); ("borderRadius", "base", 12);
    ("borderRadius", "md", 18); ("borderRadius", "lg", 24);
    ("borderRadius", "xl", 12) ]%Z.

(** The scales whose keys are magnitudes, with the unit of their values. *)
Definition magnitude_scales : list (string * string) :=
  [ ("transitionDuration", "ms"); ("ringWidth", "px");
    ("ringOffsetWidth", "px"); ("minWidth", "px"); ("minHeight", "px") ].



(** ** Shadows *)

(** A box shadow: the offsets, the blur radius and the optional spread
    radius in pixels, and the color. *)
Record shadow : Type := {
  offset_x : Z;
  offset_y : Z;
  blur : Z;
  spread : option Z;
  shadow_color : string
}.

(** A pixel length of a shadow: [0], or an integer followed by px. *)
Definition parse_px (s : string) : option Z :=
  if String.eqb s "0" then Some 0%Z
  else
    let '(sign, body) :=
      match s with
      | String "-" s' => ((-1)%Z, s')
      | _ => (1%Z, s)
      end in
    let '(num, unit) := span_numeral body in
    if String.eqb unit "px" then Z.mul sign <$> parse_nat num else None.

(** The leading elements of a list that [f] reads, and the rest. *)
Fixpoint span_omap {A B} (f : A → option B) (xs : list A) : list B * list A :=
  match xs with
  | [] => ([], [])
  | x :: xs' =>
      match f x with
      | Some y => let '(ys, rest) := span_omap f xs' in (y :: ys, rest)
      | None => ([], xs)
      end
  end.

(** A shadow value: three or four pixel lengths, then the color. *)
Definition parse_shadow (s : string) : option shadow :=
  let '(lengths, rest) := span_omap parse_px (split_on " " s) in
  let color := String.concat " " rest in
  match lengths with
  | [x; y; b] =>
      Some {| offset_x := x; offset_y := y; blur := b; spread := None;
              shadow_color := color |}
  | [x; y; b; sp] =>
      Some {| offset_x := x; offset_y := y; blur := b; spread := Some sp;
              shadow_color := color |}
  | _ => None
  end.

(** The four components of a color written [rgba(r, g, b, a)]. *)
Definition rgba_components (s : string) : option (list Q) :=
  args ← strip_prefix "rgba(" s ≫= strip_suffix ")";
  mapM (λ a, parse_decimal (ltrim a)) (split_on "," args).

(** A shadow entry: the shadow and the opacity of its color. *)
Definition shadow_entry {F} (v : value F) : option (shadow * Q) :=
  match as_string v ≫= parse_shadow with
  | Some sh =>
      match rgba_components (shadow_color sh) with
      | Some [_; _; _; a] => Some (sh, a)
      | _ => None
      end
  | None => None
  end.

(** The shadows of a table, read in the order of the literal. *)
Definition shadow_scale {F} (v : value F) : option (list (shadow * Q)) :=
  mapM shadow_entry (vals v).


(** The parts of a pattern without wildcards: one literal per character. *)
Fixpoint literal_parts (s : string) : list glob_part :=
  match s with
  | EmptyString => []
  | String c s' => GLit c :: literal_parts s'
  end.

(** ** Lightness *)

Definition hex_digit_value (c : ascii) : option Z :=
  let n := Z.of_N (N_of_ascii c) in
  if is_digit c then Some (n - 48)%Z
  else if ((65 <=? n) && (n <=? 70))%Z then Some (n - 55)%Z
  else if ((97 <=? n) && (n <=? 102))%Z then Some (n - 87)%Z
  else None.

(** The red, green and blue channels of a color written [#RRGGBB]. *)
Definition parse_rgb (s : string) : option (Z * Z * Z) :=
  match s with
  | String "#" (String r1 (String r0 (String g1 (String g0
      (String b1 (String b0 EmptyString)))))) =>
      match mapM hex_digit_value [r1; r0; g1; g0; b1; b0] with
      | Some [r1; r0; g1; g0; b1; b0] =>
          Some (16 * r1 + r0, 16 * g1 + g0, 16 * b1 + b0)%Z
      | _ => None
      end
  | _ => None
  end.

(** The luma of a color, with the weights of Rec. 709 in ten-thousandths:
    from 0 for black to 2550000 for white. *)
Definition luma (rgb : Z * Z * Z) : Z :=
  let '(r, g, b) := rgb in (2126 * r + 7152 * g + 722 * b)%Z.

(** The luma of the member [key] of the color family [name]. *)
Definition member_luma (name key : string) : option Z :=
  match get_path [name; key] colors with
  | Some (VStr c) => luma <$> parse_rgb c
  | _ => None
  end.

(** The lumas of the numbered shades of a family, from 50 to 900. *)
Definition shade_lumas (name : string) : option (list Z) :=
  mapM (member_luma name) shade_numbers.

(** * Properties *)

(** Case analysis on the membership of an entry in a literal list. *)
Ltac elem_cases H :=
  repeat first
    [ apply elem_of_nil in H; destruct H
    | apply elem_of_cons in H as [H | H]; [simplify_eq | ] ].

(** An element that occurs in a literal list. *)
Ltac elem_here :=
  solve [ repeat first [ apply list_elem_of_here | apply list_elem_of_further ] ].

(** The key set of an object literal, compared with a set given by its
    elements. *)
Ltac key_set_eq := unfold key_set, shade_keys; simpl; set_solver.

(** An element that does not occur in a literal list. *)
Ltac elem_absent :=
  let H := fresh "Habs" in intros H; elem_cases H.

(** ** The exported object *)

(** The tables of the theme are the members of [theme.extend] of the
    exported object. *)
Lemma theme_tables :
  get_path ["theme"; "extend"; "colors"] module_exports = Some colors
  ∧ get_path ["theme"; "extend"; "fontFamily"] module_exports = Some fontFamily
  ∧ get_path ["theme"; "extend"; "fontSize"] module_exports = Some fontSize
  ∧ get_path ["theme"; "extend"; "spacing"] module_exports = Some spacing
  ∧ get_path ["theme"; "extend"; "borderRadius"] module_exports
    = Some borderRadius
  ∧ get_path ["theme"; "extend"; "transitionDuration"] module_exports
    = Some transitionDuration
  ∧ get_path ["theme"; "extend"; "zIndex"] module_exports = Some zIndex.
Proof. repeat split. Qed.


(** ** The registered utilities *)

Lemma declared_durations_eq : declared_durations = [250; 350]%Z.
Proof. reflexivity. Qed.

Lemma registrations_eq : registrations module_exports = [newUtilities].
Proof. reflexivity. Qed.

Lemma registered_utilities_eq : registered_utilities = entries newUtilities.
Proof. reflexivity. Qed.

(** C1, as the specification states it, fails for [transition-fast]: its
    declaration holds the duration 150ms, and the declared duration scale
    holds 250ms and 350ms only. *)
Lemma transition_fast_outside_scale :
  (".transition-fast",
   VObj [("transition", VStr "all 150ms cubic-bezier(0.4, 0, 0.2, 1)")])
    ∈ registered_utilities
  ∧ ¬ resolves_in_scale
        (VObj [("transition", VStr "all 150ms cubic-bezier(0.4, 0, 0.2, 1)")]).
Proof.
  split.
  - rewrite registered_utilities_eq. simpl. elem_here.
  - intros (t & d & Ht & Hd & Hin). simplify_eq.
    rewrite declared_durations_eq in Hin.
    vm_compute in Hd. simplify_eq.
    elem_cases Hin.
Qed.

(** C1 (amended): each of the three registered utility classes resolves
    to exactly one [transition] declaration with one millisecond duration;
    for [transition-base] (250ms) and [transition-slow] (350ms) that
    duration is a member of the declared [transitionDuration] scale, and
    for [transition-fast] it is 150ms, which the scale does not declare. *)
Theorem registered_transition_durations (cls : string) (decl : data) :
  (cls, decl) ∈ registered_utilities →
  ∃ d : Z,
    one_transition decl d
    ∧ ((cls = ".transition-base" ∧ d = 250%Z ∧ d ∈ declared_durations)
       ∨ (cls = ".transition-slow" ∧ d = 350%Z ∧ d ∈ declared_durations)
       ∨ (cls = ".transition-fast" ∧ d = 150%Z ∧ d ∉ declared_durations)).
Proof.
  rewrite registered_utilities_eq, declared_durations_eq. simpl.
  intros Hin. elem_cases Hin.
  - exists 250%Z. split; [by eexists | left].
    repeat split; elem_here.
  - exists 150%Z. split; [by eexists | right; right].
    repeat split; elem_absent.
  - exists 350%Z. split; [by eexists | right; left].
    repeat split; elem_here.
Qed.

(** The theorem at the entry [.transition-slow]. *)
Lemma registered_transition_durations_witness :
  (".transition-slow",
   VObj [("transition", VStr "all 350ms cubic-bezier(0.4, 0, 0.2, 1)")])
    ∈ registered_utilities
  ∧ ∃ d : Z,
      one_transition
        (VObj [("transition", VStr "all 350ms cubic-bezier(0.4, 0, 0.2, 1)")]) d
      ∧ ((".transition-slow" = ".transition-base" ∧ d = 250%Z
          ∧ d ∈ declared_durations)
         ∨ (".transition-slow" = ".transition-slow" ∧ d = 350%Z
            ∧ d ∈ declared_durations)
         ∨ (".transition-slow" = ".transition-fast" ∧ d = 150%Z
            ∧ d ∉ declared_durations)).
Proof.
  assert (Hin : (".transition-slow",
                 VObj [("transition",
                        VStr "all 350ms cubic-bezier(0.4, 0, 0.2, 1)")])
                  ∈ registered_utilities).
  { rewrite registered_utilities_eq. simpl.
    elem_here. }
  split; [exact Hin | exact (registered_transition_durations _ _ Hin)].
Defined.

(** C3: invoked with a registration procedure, the plugin calls it
    exactly once; the one argument it passes is a mapping whose key set
    is exactly the three transition classes, each mapped to a declaration
    object.  Whatever the host's procedure [handler] does and whatever
    calls were recorded before, the host ends in the state one call of
    [handler] leaves, and the record grows by that one call. *)
Theorem plugin_registers_once {S : Type} (handler : data → S → S)
    (s : S) (calls : list data) :
  ∃ utilities : data,
    plugin_0 (S * list data)%type (traced handler) (s, calls)
      = (handler utilities s, calls ++ [utilities])
    ∧ key_set utilities
        = {[ ".transition-base"; ".transition-fast"; ".transition-slow" ]}
    ∧ Forall (λ kv, is_declaration kv.2 = true) (entries utilities).
Proof.
  exists newUtilities. split; [reflexivity | split].
  - key_set_eq.
  - simpl. repeat constructor.
Qed.

(** ** The color families *)

Lemma color_families_names :
  color_families.*1
  = ["primary"; "secondary"; "accent"; "background"; "surface";
     "success"; "warning"; "error"; "border"].
Proof. reflexivity. Qed.

(** Every value of a list of (key, color string) pairs is a color. *)
Ltac all_colors := simpl; repeat (constructor; [reflexivity | ]); constructor.

(** C2, as the specification states it, fails for the [background]
    family: it is a nested record, and its keys are [DEFAULT] and
    [foreground] only. *)
Lemma background_not_full_family :
  ("background",
   VObj [("DEFAULT", VStr "#FAFAFA"); ("foreground", VStr "#1F2937")])
    ∈ color_families
  ∧ ¬ full_family
        (VObj [("DEFAULT", VStr "#FAFAFA"); ("foreground", VStr "#1F2937")]
         : jsval).
Proof.
  split.
  - vm_compute. elem_here.
  - intros [Hkeys _].
    assert (Hin : "50" ∈ shade_keys) by (unfold shade_keys; set_solver).
    rewrite <- Hkeys in Hin. apply elem_of_list_to_set in Hin.
    simpl in Hin. elem_cases Hin.
Qed.

(** C2 (amended): every color family has a [DEFAULT] key and every value
    in it is a syntactically valid CSS color; the families [primary],
    [secondary], [accent], [success], [warning] and [error] have exactly
    the keys DEFAULT, 50, 100, ..., 900 and foreground, while
    [background] has DEFAULT and foreground, [surface] has DEFAULT,
    foreground, hover and active, and [border] has DEFAULT, light and
    strong. *)
Theorem color_family_keys_and_values (name : string) (fam : jsval) :
  (name, fam) ∈ entries colors →
  is_object fam = true →
  Forall (λ v, is_color_value v = true) (vals fam)
  ∧ "DEFAULT" ∈ key_set fam
  ∧ ((name ∈ ["primary"; "secondary"; "accent"; "success"; "warning"; "error"]
      ∧ key_set fam = shade_keys)
     ∨ (name = "background" ∧ key_set fam = {[ "DEFAULT"; "foreground" ]})
     ∨ (name = "surface"
        ∧ key_set fam = {[ "DEFAULT"; "foreground"; "hover"; "active" ]})
     ∨ (name = "border"
        ∧ key_set fam = {[ "DEFAULT"; "light"; "strong" ]})).
Proof.
  intros Hin Hobj. unfold colors in Hin. simpl in Hin.
  elem_cases Hin; try discriminate Hobj;
    (split; [all_colors | split; [apply elem_of_list_to_set; elem_here | ]]).
  - left. split; [elem_here | key_set_eq].
  - left. split; [elem_here | key_set_eq].
  - left. split; [elem_here | key_set_eq].
  - right; left. split; [reflexivity | key_set_eq].
  - right; right; left. split; [reflexivity | key_set_eq].
  - left. split; [elem_here | key_set_eq].
  - left. split; [elem_here | key_set_eq].
  - left. split; [elem_here | key_set_eq].
  - right; right; right. split; [reflexivity | key_set_eq].
Qed.

(** The theorem at the family [border]. *)
Lemma color_family_keys_and_values_witness :
  (("border",
    VObj [("DEFAULT", VStr "rgba(0, 0, 0, 0.08)");
          ("light", VStr "rgba(0, 0, 0, 0.04)");
          ("strong", VStr "rgba(0, 0, 0, 0.12)")]) ∈ entries colors
   ∧ is_object
       (VObj [("DEFAULT", VStr "rgba(0, 0, 0, 0.08)");
              ("light", VStr "rgba(0, 0, 0, 0.04)");
              ("strong", VStr "rgba(0, 0, 0, 0.12)")] : jsval) = true)
  ∧ Forall (λ v : jsval, is_color_value v = true)
      [VStr "rgba(0, 0, 0, 0.08)"; VStr "rgba(0, 0, 0, 0.04)";
       VStr "rgba(0, 0, 0, 0.12)"].
Proof.
  assert (Hin : ("border",
                 VObj [("DEFAULT", VStr "rgba(0, 0, 0, 0.08)");
                       ("light", VStr "rgba(0, 0, 0, 0.04)");
                       ("strong", VStr "rgba(0, 0, 0, 0.12)")])
                  ∈ entries colors).
  { unfold colors. simpl. elem_here. }
  split; [split; [exact Hin | reflexivity] | ].
  exact (proj1 (color_family_keys_and_values _ _ Hin eq_refl)).
Defined.

(** ** The spacing scale *)

Lemma spacing_scale_eq :
  rem_scale spacing
  = Some [(1, 5 # 10); (2, 1 # 1); (3, 15 # 10); (4, 2 # 1); (6, 3 # 1);
          (8, 4 # 1); (12, 6 # 1)]%Z%Q.
Proof. reflexivity. Qed.

(** Every key of the spacing scale is an integer, every value a length in
    rem, and in ascending order of the keys both the keys and the lengths
    strictly increase. *)
Lemma spacing_sorted_increasing :
  ∃ scale : list (Z * Q),
    rem_scale spacing = Some scale
    ∧ length scale = length (entries spacing)
    ∧ StronglySorted (λ a b, (a.1 < b.1)%Z ∧ (a.2 < b.2)%Q)
        (sort_by_key scale).
Proof.
  eexists. split; [apply spacing_scale_eq | split; [reflexivity | ]].
  vm_compute sort_by_key.
  repeat (constructor; [ | repeat (constructor; [split; reflexivity | ]);
                           constructor ]).
  constructor.
Qed.

(** C4: for every pair of keys [k1 < k2] (as numbers) of the spacing
    scale, the two values are lengths in rem and [spacing[k1]] is
    strictly less than [spacing[k2]]. *)
Theorem spacing_strictly_increasing
    (k1 k2 : string) (v1 v2 : jsval) (n1 n2 : Z) :
  (k1, v1) ∈ entries spacing →
  (k2, v2) ∈ entries spacing →
  parse_int k1 = Some n1 →
  parse_int k2 = Some n2 →
  (n1 < n2)%Z →
  ∃ l1 l2 : Q,
    rem_length v1 = Some l1 ∧ rem_length v2 = Some l2 ∧ (l1 < l2)%Q.
Proof.
  intros H1 H2 Hn1 Hn2 Hlt. unfold spacing in H1, H2. simpl in H1, H2.
  elem_cases H1; elem_cases H2;
    try (vm_compute in Hn1); try (vm_compute in Hn2); simplify_eq;
    first [ exfalso; lia
          | eexists _, _; split; [reflexivity | split; reflexivity] ].
Qed.

(** The theorem at the keys 4 and 12. *)
Lemma spacing_strictly_increasing_witness :
  (("4", VStr "2rem") ∈ entries spacing
   ∧ ("12", VStr "6rem") ∈ entries spacing
   ∧ parse_int "4" = Some 4%Z
   ∧ parse_int "12" = Some 12%Z
   ∧ (4 < 12)%Z)
  ∧ ∃ l1 l2 : Q,
      rem_length (VStr "2rem" : jsval) = Some l1
      ∧ rem_length (VStr "6rem" : jsval) = Some l2
      ∧ (l1 < l2)%Q.
Proof.
  assert (H1 : ("4", VStr "2rem") ∈ entries spacing)
    by (unfold spacing; simpl; elem_here).
  assert (H2 : ("12", VStr "6rem") ∈ entries spacing)
    by (unfold spacing; simpl; elem_here).
  assert (Hlt : (4 < 12)%Z) by reflexivity.
  split; [repeat split; assumption | ].
  exact (spacing_strictly_increasing "4" "12" _ _ 4 12 H1 H2 eq_refl eq_refl Hlt).
Defined.

(** ** The scanned files *)

(** C5: [content] is the list of exactly four glob patterns, the patterns
    pages/**/*.{html,js}, components/**/*.{html,js}, index.html and
    *.html, each rooted with ./ ; every pattern is a non-empty string,
    and at least one of them matches the root file index.html. *)
Theorem content_globs :
  ∃ patterns : list string,
    get "content" module_exports ≫= as_strings = Some patterns
    ∧ patterns
      = String.append "./"
          <$> ["pages/**/*.{html,js}"; "components/**/*.{html,js}";
               "index.html"; "*.html"]
    ∧ Forall (λ p, p ≠ EmptyString) patterns
    ∧ Exists (λ p, glob_match p "index.html" = true) patterns.
Proof.
  eexists. split; [reflexivity | split; [reflexivity | split]].
  - repeat (constructor; [discriminate | ]). constructor.
  - do 2 apply Exists_cons_tl. apply Exists_cons_hd. reflexivity.
Qed.

(** ** Typography *)

(** C7: every entry of [fontSize] is a pair [[size, options]] in which
    [options.lineHeight] is present and is a numeral without a unit, and
    [size] is a numeral followed by the unit rem. *)
Theorem font_size_entries (name : string) (v : jsval) :
  (name, v) ∈ entries fontSize →
  ∃ (size lineHeight : string) (options : jsval) (q ratio : Q),
    v = VArr [VStr size; options]
    ∧ get "lineHeight" options = Some (VStr lineHeight)
    ∧ parse_decimal lineHeight = Some ratio
    ∧ parse_dimension size = Some (q, "rem").
Proof.
  intros Hin. unfold fontSize in Hin. simpl in Hin.
  elem_cases Hin; eexists _, _, _, _, _; repeat split; reflexivity.
Qed.

(** The theorem at the entry [3xl]. *)
Lemma font_size_entries_witness :
  ("3xl", VArr [VStr "1.875rem"; VObj [("lineHeight", VStr "1.25")]])
    ∈ entries fontSize
  ∧ ∃ (size lineHeight : string) (options : jsval) (q ratio : Q),
      VArr [VStr "1.875rem"; VObj [("lineHeight", VStr "1.25")]]
        = VArr [VStr size; options]
      ∧ get "lineHeight" options = Some (VStr lineHeight)
      ∧ parse_decimal lineHeight = Some ratio
      ∧ parse_dimension size = Some (q, "rem").
Proof.
  assert (Hin : ("3xl", VArr [VStr "1.875rem";
                              VObj [("lineHeight", VStr "1.25")]])
                  ∈ entries fontSize)
    by (unfold fontSize; simpl; elem_here).
  split; [exact Hin | exact (font_size_entries _ _ Hin)].
Defined.

(** C8: [darkMode] is the string class, not the media strategy, and
    every entry of [fontFamily] is a non-empty list of font names whose
    last element is a generic family, sans-serif or monospace. *)
Theorem dark_mode_and_font_families :
  get "darkMode" module_exports = Some (VStr "class")
  ∧ get "darkMode" module_exports ≠ Some (VStr "media")
  ∧ ∀ (role : string) (v : jsval),
      (role, v) ∈ entries fontFamily →
      ∃ (names : list string) (generic : string),
        as_strings v = Some names
        ∧ names ≠ []
        ∧ last names = Some generic
        ∧ generic ∈ ["sans-serif"; "monospace"].
Proof.
  split; [reflexivity | split; [discriminate | ]].
  intros role v Hin. unfold fontFamily in Hin. simpl in Hin.
  elem_cases Hin; eexists _, _;
    (split; [reflexivity | split; [discriminate | split; [reflexivity | ]]]);
    elem_here.
Qed.

(** The theorem at the role [mono]. *)
Lemma dark_mode_and_font_families_witness :
  ("mono", VArr [VStr "JetBrains Mono"; VStr "monospace"]) ∈ entries fontFamily
  ∧ ∃ (names : list string) (generic : string),
      as_strings (VArr [VStr "JetBrains Mono"; VStr "monospace"] : jsval)
        = Some names
      ∧ names ≠ []
      ∧ last names = Some generic
      ∧ generic ∈ ["sans-serif"; "monospace"].
Proof.
  assert (Hin : ("mono", VArr [VStr "JetBrains Mono"; VStr "monospace"])
                  ∈ entries fontFamily)
    by (unfold fontFamily; simpl; elem_here).
  split; [exact Hin | ].
  exact (proj2 (proj2 dark_mode_and_font_families) _ _ Hin).
Defined.

(** ** Layers and radii *)

(** The z-index of a layer, as an integer. *)
Lemma zindex_values :
  mapM int_value (vals zIndex) = Some [0; 1; 50; 100; 200; 300]%Z.
Proof. reflexivity. Qed.

(** C9: the z-index scale is strictly ordered by layer, base < card <
    dropdown < navigation < modal < toast (0 < 1 < 50 < 100 < 200 < 300),
    so no two declared layers share a z-index value. *)
Theorem zindex_strictly_ordered :
  ∃ base card dropdown navigation modal toast : Z,
    get "base" zIndex ≫= int_value = Some base
    ∧ get "card" zIndex ≫= int_value = Some card
    ∧ get "dropdown" zIndex ≫= int_value = Some dropdown
    ∧ get "navigation" zIndex ≫= int_value = Some navigation
    ∧ get "modal" zIndex ≫= int_value = Some modal
    ∧ get "toast" zIndex ≫= int_value = Some toast
    ∧ [base; card; dropdown; navigation; modal; toast]
      = [0; 1; 50; 100; 200; 300]%Z
    ∧ (base < card < dropdown)%Z
    ∧ (dropdown < navigation < modal)%Z
    ∧ (modal < toast)%Z
    ∧ keys zIndex
      = ["base"; "card"; "dropdown"; "navigation"; "modal"; "toast"]
    ∧ mapM int_value (vals zIndex)
      = Some [base; card; dropdown; navigation; modal; toast]
    ∧ NoDup [base; card; dropdown; navigation; modal; toast].
Proof.
  exists 0%Z, 1%Z, 50%Z, 100%Z, 200%Z, 300%Z.
  repeat (split; [first [reflexivity | lia] | ]).
  repeat (constructor; [elem_absent | ]). constructor.
Qed.

(** C10: the border-radius scale is not injective and not monotone in
    its size order: [xl] equals [base], both 0.75rem, hence as lengths
    [xl] is less than [md] and less than [lg]. *)
Theorem border_radius_xl_equals_base :
  get "xl" borderRadius = Some (VStr "0.75rem")
  ∧ get "base" borderRadius = Some (VStr "0.75rem")
  ∧ "xl" ≠ "base"
  ∧ ∃ xl md lg : Q,
      get "xl" borderRadius ≫= rem_length = Some xl
      ∧ get "md" borderRadius ≫= rem_length = Some md
      ∧ get "lg" borderRadius ≫= rem_length = Some lg
      ∧ (xl < md)%Q
      ∧ (xl < lg)%Q.
Proof.
  split; [reflexivity | split; [reflexivity | split; [discriminate | ]]].
  eexists _, _, _. repeat split; reflexivity.
Qed.

(** ** Evaluation *)

Lemma Forall2_impl_elem {A B : Type} (P Q : A → B → Prop)
    (l : list A) (k : list B) :
  Forall2 P l k → (∀ x y, x ∈ l → P x y → Q x y) → Forall2 Q l k.
Proof.
  induction 1 as [ | x y l k Hxy _ IH]; intros Himp; constructor.
  - apply Himp; [apply list_elem_of_here | exact Hxy].
  - apply IH. intros x' y' Hin. apply Himp. by apply list_elem_of_further.
Qed.

Section Evaluation.
Context {F : Type}.
Implicit Types (h : gmap loc (cell F)) (v : value F) (r : ref).

Lemma alloc_inv (c : cell F) h r h' :
  alloc c h = (r, h') →
  ∃ l : loc, r = RLoc l ∧ h !! l = None ∧ h' = <[l := c]> h.
Proof.
  unfold alloc. intros [= <- <-]. eexists. split; [reflexivity | ].
  split; [ | reflexivity]. apply not_elem_of_dom, is_fresh.
Qed.

Lemma eval_VArr items h :
  eval (VArr items) h
  = (let '(rs, h') := eval_list eval items h in alloc (CArr rs) h').
Proof. reflexivity. Qed.

Lemma eval_VObj fields h :
  eval (VObj fields) h
  = (let '(rs, h') :=
       eval_list (λ (kv : string * value F) h0,
                    let '(k, x) := kv in
                    let '(r, h1) := eval x h0 in ((k, r), h1))
                 fields h in
     alloc (CObj rs) h').
Proof. reflexivity. Qed.

(** What holds of each member after its own evaluation holds of all
    members after the evaluation of the list, provided it is kept by
    every larger store. *)
Lemma eval_list_good {A R : Type}
    (ev : A → gmap loc (cell F) → R * gmap loc (cell F))
    (good : A → R → gmap loc (cell F) → Prop) (xs : list A) :
  Forall (λ x, ∀ h (r : R) h', ev x h = (r, h') →
                 h ⊆ h' ∧ ∀ h'', h' ⊆ h'' → good x r h'') xs →
  ∀ h rs h', eval_list ev xs h = (rs, h') →
    h ⊆ h' ∧ ∀ h'', h' ⊆ h'' → Forall2 (λ x (y : R), good x y h'') xs rs.
Proof.
  induction 1 as [ | x xs Hx _ IH]; intros h rs h' E; simpl in E.
  - injection E as <- <-. split; [reflexivity | ]. intros; constructor.
  - destruct (ev x h) as [r h1] eqn:E1.
    destruct (eval_list ev xs h1) as [rs' h2] eqn:E2.
    injection E as <- <-.
    destruct (Hx _ _ _ E1) as [S1 G1].
    destruct (IH _ _ _ E2) as [S2 G2].
    split; [by etrans | ].
    intros h'' Hsub. constructor; [ | by apply G2].
    apply G1. by etrans.
Qed.

Lemma depth_item_le (items : list (value F)) (x : value F) :
  x ∈ items → (depth x ≤ foldr (λ x d, depth x `max` d) O items)%nat.
Proof.
  induction 1 as [x l | x y l _ IH]; simpl; lia.
Qed.

Lemma depth_field_le (fields : list (string * value F)) kv :
  kv ∈ fields →
  (depth kv.2 ≤ foldr (λ kv d, depth kv.2 `max` d) O fields)%nat.
Proof.
  induction 1 as [x l | x y l _ IH]; simpl; lia.
Qed.

(** A literal evaluates in every store; the store only grows, and in
    the store it leaves (and in every larger one) the result stands for
    the structure of the literal. *)
Lemma eval_reify v :
  ∀ h r h', eval v h = (r, h') →
    h ⊆ h'
    ∧ ∀ h'', h' ⊆ h'' → ∀ n, (depth v ≤ n)%nat → reify n h'' r = Some v.
Proof.
  induction v as [s | items IH | fields IH | f] using value_nested_ind;
    intros h r h' E.
  - injection E as <- <-. split; [reflexivity | ]. by intros; destruct n.
  - rewrite eval_VArr in E.
    destruct (eval_list eval items h) as [rs h1] eqn:E1.
    apply alloc_inv in E as (l & -> & Hfresh & ->).
    apply (eval_list_good eval
             (λ x r h'', ∀ n, (depth x ≤ n)%nat → reify n h'' r = Some x))
      in E1 as [S1 G1]; [ | exact IH].
    split; [etrans; [exact S1 | by apply insert_subseteq] | ].
    intros h'' Hsub n Hn. simpl in Hn.
    destruct n as [ | n]; [lia | ]. simpl.
    rewrite (lookup_weaken _ _ _ _ (lookup_insert_eq _ _ _) Hsub).
    assert (Hrs : mapM (reify n h'') rs = Some items).
    { apply mapM_Some.
      assert (Hsub1 : h1 ⊆ h'')
        by (etrans; [by apply insert_subseteq | exact Hsub]).
      specialize (G1 _ Hsub1).
      apply Forall2_flip. eapply Forall2_impl_elem; [exact G1 | ].
      intros x r' Hx Hgood. simpl. apply Hgood.
      pose proof (depth_item_le _ _ Hx). lia. }
    by rewrite Hrs.
  - rewrite eval_VObj in E.
    match type of E with
    | (let '(_, _) := eval_list ?ev _ _ in _) = _ =>
        destruct (eval_list ev fields h) as [rs h1] eqn:E1
    end.
    apply alloc_inv in E as (l & -> & Hfresh & ->).
    apply (eval_list_good _
             (λ kv kr h'', kr.1 = kv.1
                ∧ ∀ n, (depth kv.2 ≤ n)%nat → reify n h'' kr.2 = Some kv.2))
      in E1 as [S1 G1].
    2:{ eapply Forall_impl; [exact IH | ].
        intros [k x] Hx h0 [k' r'] h0' E0. simpl in *.
        destruct (eval x h0) as [r0 h2] eqn:E2.
        injection E0 as <- <- <-.
        destruct (Hx _ _ _ E2) as [S2 G2].
        split; [exact S2 | ]. intros h'' Hsub. split; [reflexivity | ].
        by apply G2. }
    split; [etrans; [exact S1 | by apply insert_subseteq] | ].
    intros h'' Hsub n Hn. simpl in Hn.
    destruct n as [ | n]; [lia | ]. simpl.
    rewrite (lookup_weaken _ _ _ _ (lookup_insert_eq _ _ _) Hsub).
    assert (Hrs : mapM (λ kr : string * ref,
                          pair kr.1 <$> reify n h'' kr.2) rs
                  = Some fields).
    { apply mapM_Some.
      assert (Hsub1 : h1 ⊆ h'')
        by (etrans; [by apply insert_subseteq | exact Hsub]).
      specialize (G1 _ Hsub1).
      apply Forall2_flip. eapply Forall2_impl_elem; [exact G1 | ].
      intros [k x] [k' r'] Hx [Hk Hgood]. simpl in *. subst k'.
      rewrite Hgood; [reflexivity | ].
      pose proof (depth_field_le _ _ Hx). simpl in *. lia. }
    by rewrite Hrs.
  - apply alloc_inv in E as (l & -> & Hfresh & ->).
    split; [by apply insert_subseteq | ].
    intros h'' Hsub n Hn. simpl in Hn.
    destruct n as [ | n]; [lia | ]. simpl.
    by rewrite (lookup_weaken _ _ _ _ (lookup_insert_eq _ _ _) Hsub).
Qed.

(** The object an object literal evaluates to is new: its location is
    not used by the store the evaluation starts from, and is used by
    the store it leaves. *)
Lemma eval_object_fresh fields h :
  ∃ l : loc,
    (eval (VObj fields) h).1 = RLoc l
    ∧ h !! l = None
    ∧ is_Some ((eval (VObj fields) h).2 !! l).
Proof.
  destruct (eval (VObj fields) h) as [r h'] eqn:E.
  pose proof (eval_reify _ _ _ _ E) as [Hsub _].
  rewrite eval_VObj in E.
  match type of E with
  | (let '(_, _) := eval_list ?ev _ _ in _) = _ =>
      destruct (eval_list ev fields h) as [rs h1] eqn:E1
  end.
  apply (eval_list_good _ (λ _ _ _, True)) in E1 as [S1 _].
  2:{ apply Forall_forall. intros [k x] _ h0 [k' r'] h0' E0.
      destruct (eval x h0) as [r0 h2] eqn:E2.
      injection E0 as <- <- <-.
      split; [by apply (eval_reify _ _ _ _ E2) | done]. }
  apply alloc_inv in E as (l & -> & Hfresh & ->).
  exists l. simpl. split; [reflexivity | split].
  - destruct (h !! l) eqn:Hl; [ | reflexivity].
    by rewrite (lookup_weaken _ _ _ _ Hl S1) in Hfresh.
  - rewrite lookup_insert_eq. by eexists.
Qed.

(** Two evaluations in a row of an object literal, and one more from
    any other store: three results that stand for the structure of the
    literal, the first two being distinct objects. *)
Lemma eval_twice v h h0 :
  is_object v = true →
  let first := eval v h in
  let second := eval v first.2 in
  let other := eval v h0 in
  reify (depth v) second.2 first.1 = Some v
  ∧ reify (depth v) second.2 second.1 = Some v
  ∧ first.1 ≠ second.1
  ∧ reify (depth v) other.2 other.1 = Some v.
Proof.
  intros Hobj first second other. subst first second other.
  destruct v as [ | | fields | ]; try discriminate Hobj. clear Hobj.
  set (v := VObj fields) in *.
  destruct (eval_object_fresh fields h) as (l1 & Hr1 & _ & Hused).
  destruct (eval_object_fresh fields (eval v h).2)
    as (l2 & Hr2 & Hfresh & _).
  fold v in Hr1, Hr2, Hused.
  destruct (eval v h) as [r1 h1] eqn:E1. cbn [fst snd] in *.
  destruct (eval v h1) as [r2 h2] eqn:E2. cbn [fst snd] in *.
  destruct (eval v h0) as [r3 h3] eqn:E3. cbn [fst snd] in *.
  destruct (eval_reify _ _ _ _ E1) as [_ G1].
  destruct (eval_reify _ _ _ _ E2) as [S2 G2].
  destruct (eval_reify _ _ _ _ E3) as [_ G3].
  split; [by apply G1 | split; [by apply G2 | split; [ | by apply G3]]].
  subst r1 r2. intros [= ->]. rewrite Hfresh in Hused. by destruct Hused.
Qed.
End Evaluation.

(** C6: evaluating the configuration is deterministic and idempotent.
    Evaluated twice in a row from any store, the literal yields two
    distinct objects that stand for the same structure, the one the
    literal spells out; evaluated from any other store it yields that
    structure again.  Hence whatever the consuming tool computes from the
    structure of the configuration ([build]) is the same on every
    evaluation, and the plugin hands over the same mapping on every
    call. *)
Theorem evaluation_reproducible
    (h h0 : gmap loc (cell Plugin)) (T : Type) (build : jsval → T) :
  let first := eval module_exports h in
  let second := eval module_exports first.2 in
  let other := eval module_exports h0 in
  (reify (depth module_exports) second.2 first.1 = Some module_exports
   ∧ reify (depth module_exports) second.2 second.1 = Some module_exports
   ∧ first.1 ≠ second.1
   ∧ reify (depth module_exports) other.2 other.1 = Some module_exports)
  ∧ build <$> reify (depth module_exports) second.2 first.1
    = build <$> reify (depth module_exports) other.2 other.1
  ∧ plugin_0 (list data) recorder (plugin_0 (list data) recorder [])
    = [newUtilities; newUtilities].
Proof.
  pose proof (eval_twice module_exports h h0 eq_refl) as Htwice.
  cbv zeta in Htwice |- *.
  split; [exact Htwice | split; [ | reflexivity]].
  destruct Htwice as (H1 & _ & _ & H3).
  rewrite H1, H3. reflexivity.
Qed.

(** * Further properties of the table *)

(** ** Lookup *)


(** A value found by [get] is one of the entries of the object. *)
Lemma get_is_entry {F} (k : string) (v x : value F) :
  get k v = Some x → (k, x) ∈ entries v.
Proof.
  destruct v as [ | | fields | ]; simpl; try discriminate.
  induction fields as [ | [k' x'] fields IH]; simpl; [discriminate | ].
  destruct (get_field k fields) as [y | ].
  - intros [= ->]. by apply list_elem_of_further, IH.
  - destruct (String.eqb k k') eqn:Hk; [ | discriminate].
    apply String.eqb_eq in Hk as ->. intros [= ->]. apply list_elem_of_here.
Qed.








(** ** Colors *)




(** X3: in every family that has the numbered shades, [DEFAULT] is not a
    color of its own: it repeats shade 500 or shade 600 of the family. *)
Theorem default_repeats_a_shade (name : string) (fam : jsval) :
  (name, fam) ∈ entries colors →
  key_set fam = shade_keys →
  ∃ shade : string,
    shade ∈ ["500"; "600"]
    ∧ is_Some (get shade fam)
    ∧ get "DEFAULT" fam = get shade fam.
Proof.
  intros Hin Hkeys.
  assert (H50 : "50" ∈ keys fam).
  { apply (elem_of_list_to_set (C := gset string)). fold (key_set fam).
    rewrite Hkeys. unfold shade_keys. set_solver. }
  clear Hkeys. unfold colors in Hin. simpl in Hin.
  elem_cases Hin; simpl in H50; try (by elem_cases H50).
  - exists "600". split; [elem_here | split; [by eexists | reflexivity]].
  - exists "500". split; [elem_here | split; [by eexists | reflexivity]].
  - exists "500". split; [elem_here | split; [by eexists | reflexivity]].
  - exists "600". split; [elem_here | split; [by eexists | reflexivity]].
  - exists "600". split; [elem_here | split; [by eexists | reflexivity]].
  - exists "600". split; [elem_here | split; [by eexists | reflexivity]].
Qed.

(** The theorem at the family [error]. *)
Lemma default_repeats_a_shade_witness :
  (("error",
    VObj [("DEFAULT", VStr "#DC2626"); ("50", VStr "#FEF2F2");
          ("100", VStr "#FEE2E2"); ("200", VStr "#FECACA");
          ("300", VStr "#FCA5A5"); ("400", VStr "#F87171");
          ("500", VStr "#EF4444"); ("600", VStr "#DC2626");
          ("700", VStr "#B91C1C"); ("800", VStr "#991B1B");
          ("900", VStr "#7F1D1D"); ("foreground", VStr "#FFFFFF")])
     ∈ entries colors
   ∧ key_set
       (VObj [("DEFAULT", VStr "#DC2626"); ("50", VStr "#FEF2F2");
              ("100", VStr "#FEE2E2"); ("200", VStr "#FECACA");
              ("300", VStr "#FCA5A5"); ("400", VStr "#F87171");
              ("500", VStr "#EF4444"); ("600", VStr "#DC2626");
              ("700", VStr "#B91C1C"); ("800", VStr "#991B1B");
              ("900", VStr "#7F1D1D"); ("foreground", VStr "#FFFFFF")]
        : jsval) = shade_keys)
  ∧ ∃ shade : string,
      shade ∈ ["500"; "600"]
      ∧ is_Some
          (get shade
             (VObj [("DEFAULT", VStr "#DC2626"); ("50", VStr "#FEF2F2");
                    ("100", VStr "#FEE2E2"); ("200", VStr "#FECACA");
                    ("300", VStr "#FCA5A5"); ("400", VStr "#F87171");
                    ("500", VStr "#EF4444"); ("600", VStr "#DC2626");
                    ("700", VStr "#B91C1C"); ("800", VStr "#991B1B");
                    ("900", VStr "#7F1D1D"); ("foreground", VStr "#FFFFFF")]
              : jsval))
      ∧ get "DEFAULT"
          (VObj [("DEFAULT", VStr "#DC2626"); ("50", VStr "#FEF2F2");
                 ("100", VStr "#FEE2E2"); ("200", VStr "#FECACA");
                 ("300", VStr "#FCA5A5"); ("400", VStr "#F87171");
                 ("500", VStr "#EF4444"); ("600", VStr "#DC2626");
                 ("700", VStr "#B91C1C"); ("800", VStr "#991B1B");
                 ("900", VStr "#7F1D1D"); ("foreground", VStr "#FFFFFF")]
           : jsval)
        = get shade
            (VObj [("DEFAULT", VStr "#DC2626"); ("50", VStr "#FEF2F2");
                   ("100", VStr "#FEE2E2"); ("200", VStr "#FECACA");
                   ("300", VStr "#FCA5A5"); ("400", VStr "#F87171");
                   ("500", VStr "#EF4444"); ("600", VStr "#DC2626");
                   ("700", VStr "#B91C1C"); ("800", VStr "#991B1B");
                   ("900", VStr "#7F1D1D"); ("foreground", VStr "#FFFFFF")]).
Proof.
  match goal with
  | |- (?Hin ∧ ?Hkeys) ∧ _ =>
      assert (H1 : Hin) by (unfold colors; simpl; elem_here);
      assert (H2 : Hkeys) by key_set_eq
  end.
  split; [split; assumption | ].
  exact (default_repeats_a_shade _ _ H1 H2).
Defined.

(** X4: the ten numbered shades of [accent] and of [warning] are the
    same colors, shade by shade; the two families differ in their
    [DEFAULT] (shade 500 against shade 600) and in their foreground. *)
Theorem accent_and_warning_share_shades (shade : string) :
  shade ∈ shade_numbers →
  ∃ c : string,
    get_path ["accent"; shade] colors = Some (VStr c)
    ∧ get_path ["warning"; shade] colors = Some (VStr c)
    ∧ get_path ["accent"; "DEFAULT"] colors
      = get_path ["accent"; "500"] colors
    ∧ get_path ["warning"; "DEFAULT"] colors
      = get_path ["warning"; "600"] colors
    ∧ get_path ["accent"; "foreground"] colors
      ≠ get_path ["warning"; "foreground"] colors.
Proof.
  intros Hin. unfold shade_numbers in Hin.
  elem_cases Hin; eexists; repeat split; discriminate.
Qed.

(** The theorem at shade 700. *)
Lemma accent_and_warning_share_shades_witness :
  "700" ∈ shade_numbers
  ∧ ∃ c : string,
      get_path ["accent"; "700"] colors = Some (VStr c)
      ∧ get_path ["warning"; "700"] colors = Some (VStr c)
      ∧ get_path ["accent"; "DEFAULT"] colors
        = get_path ["accent"; "500"] colors
      ∧ get_path ["warning"; "DEFAULT"] colors
        = get_path ["warning"; "600"] colors
      ∧ get_path ["accent"; "foreground"] colors
        ≠ get_path ["warning"; "foreground"] colors.
Proof.
  assert (Hin : "700" ∈ shade_numbers) by (unfold shade_numbers; elem_here).
  split; [exact Hin | exact (accent_and_warning_share_shades "700" Hin)].
Defined.

(** ** Scales *)

(** X5: the spacing scale is a grid of half a rem: the entry of key [n]
    is [n / 2] rem (8 pixels per step at 16 pixels per rem). *)
Theorem spacing_half_rem_grid (k : string) (v : jsval) :
  (k, v) ∈ entries spacing →
  ∃ (n : Z) (l : Q),
    parse_int k = Some n ∧ rem_length v = Some l ∧ (l * 2 == inject_Z n)%Q.
Proof.
  intros Hin. unfold spacing in Hin. simpl in Hin.
  elem_cases Hin; eexists _, _; repeat split; reflexivity.
Qed.

(** The theorem at the key 6. *)
Lemma spacing_half_rem_grid_witness :
  ("6", VStr "3rem") ∈ entries spacing
  ∧ ∃ (n : Z) (l : Q),
      parse_int "6" = Some n
      ∧ rem_length (VStr "3rem" : jsval) = Some l
      ∧ (l * 2 == inject_Z n)%Q.
Proof.
  assert (Hin : ("6", VStr "3rem") ∈ entries spacing)
    by (unfold spacing; simpl; elem_here).
  split; [exact Hin | exact (spacing_half_rem_grid _ _ Hin)].
Defined.



(** X7: the pixel equivalents written in the comments beside the rem
    lengths of [fontSize], [spacing] and [borderRadius] agree with the
    lengths, at 16 pixels per rem. *)
Theorem documented_pixels_agree (table key : string) (px : Z) :
  (table, key, px) ∈ documented_px →
  ∃ (v : jsval) (l : Q),
    get_path ["theme"; "extend"; table; key] module_exports = Some v
    ∧ length_of v = Some l
    ∧ (l * 16 == inject_Z px)%Q.
Proof.
  intros Hin. unfold documented_px in Hin.
  elem_cases Hin; eexists _, _; repeat split; reflexivity.
Qed.

(** The theorem at the font size [3xl], documented as 30px. *)
Lemma documented_pixels_agree_witness :
  ("fontSize", "3xl", 30%Z) ∈ documented_px
  ∧ ∃ (v : jsval) (l : Q),
      get_path ["theme"; "extend"; "fontSize"; "3xl"] module_exports = Some v
      ∧ length_of v = Some l
      ∧ (l * 16 == inject_Z 30)%Q.
Proof.
  assert (Hin : ("fontSize", "3xl", 30%Z) ∈ documented_px)
    by (unfold documented_px; elem_here).
  split; [exact Hin | exact (documented_pixels_agree _ _ _ Hin)].
Defined.

(** Every entry of the three tables has its comment. *)
Lemma documented_px_covers :
  documented_px.*1
  = ((λ k, ("fontSize", k)) <$> keys fontSize)
    ++ ((λ k, ("spacing", k)) <$> keys spacing)
    ++ ((λ k, ("borderRadius", k)) <$> keys borderRadius).
Proof. reflexivity. Qed.

(** X8: in the scales keyed by a magnitude ([transitionDuration],
    [ringWidth], [ringOffsetWidth], [minWidth], [minHeight]) every key
    is a number and its value is that number followed by the unit of the
    scale: the class named by a number yields that many ms or px. *)
Theorem magnitude_scales_name_their_values
    (table unit key : string) (scale v : jsval) :
  (table, unit) ∈ magnitude_scales →
  get_path ["theme"; "extend"; table] module_exports = Some scale →
  (key, v) ∈ entries scale →
  is_Some (parse_nat key) ∧ v = VStr (key +:+ unit)%string.
Proof.
  intros Htable Hscale Hin. unfold magnitude_scales in Htable.
  elem_cases Htable; vm_compute in Hscale; simplify_eq;
    simpl in Hin; elem_cases Hin; split; (by eexists) || reflexivity.
Qed.

(** The theorem at [transitionDuration] and its key 350. *)
Lemma magnitude_scales_name_their_values_witness :
  (("transitionDuration", "ms") ∈ magnitude_scales
   ∧ get_path ["theme"; "extend"; "transitionDuration"] module_exports
     = Some transitionDuration
   ∧ ("350", VStr "350ms") ∈ entries transitionDuration)
  ∧ is_Some (parse_nat "350")
  ∧ (VStr "350ms" : jsval) = VStr ("350" +:+ "ms")%string.
Proof.
  assert (H1 : ("transitionDuration", "ms") ∈ magnitude_scales)
    by (unfold magnitude_scales; elem_here).
  assert (H2 : ("350", VStr "350ms") ∈ entries transitionDuration)
    by (unfold transitionDuration; simpl; elem_here).
  split; [repeat split; assumption | ].
  exact (magnitude_scales_name_their_values _ _ _ _ _ H1 eq_refl H2).
Defined.

(** ** The registered utilities, continued *)

(** X9: every registered class is named [.transition-] followed by a
    variant, and its [transition] value is the word all, a duration in
    ms and the easing curve the theme declares as
    [transitionTimingFunction.out], separated by single blanks. *)
Theorem registered_transitions_use_declared_easing
    (cls : string) (decl : data) :
  (cls, decl) ∈ registered_utilities →
  ∃ variant duration easing : string,
    cls = (".transition-" +:+ variant)%string
    ∧ get_path ["theme"; "extend"; "transitionTimingFunction"; "out"]
        module_exports = Some (VStr easing)
    ∧ decl
      = VObj [("transition",
               VStr ("all " +:+ duration +:+ " " +:+ easing)%string)]
    ∧ is_Some (parse_ms duration).
Proof.
  rewrite registered_utilities_eq. simpl. intros Hin.
  elem_cases Hin.
  - exists "base", "250ms", "cubic-bezier(0.4, 0, 0.2, 1)".
    repeat split; by eexists.
  - exists "fast", "150ms", "cubic-bezier(0.4, 0, 0.2, 1)".
    repeat split; by eexists.
  - exists "slow", "350ms", "cubic-bezier(0.4, 0, 0.2, 1)".
    repeat split; by eexists.
Qed.

(** The theorem at the class [.transition-fast]. *)
Lemma registered_transitions_use_declared_easing_witness :
  (".transition-fast",
   VObj [("transition", VStr "all 150ms cubic-bezier(0.4, 0, 0.2, 1)")])
    ∈ registered_utilities
  ∧ ∃ variant duration easing : string,
      ".transition-fast" = (".transition-" +:+ variant)%string
      ∧ get_path ["theme"; "extend"; "transitionTimingFunction"; "out"]
          module_exports = Some (VStr easing)
      ∧ (VObj [("transition",
                VStr "all 150ms cubic-bezier(0.4, 0, 0.2, 1)")] : data)
        = VObj [("transition",
                 VStr ("all " +:+ duration +:+ " " +:+ easing)%string)]
      ∧ is_Some (parse_ms duration).
Proof.
  assert (Hin : (".transition-fast",
                 VObj [("transition",
                        VStr "all 150ms cubic-bezier(0.4, 0, 0.2, 1)")])
                  ∈ registered_utilities).
  { rewrite registered_utilities_eq. simpl. elem_here. }
  split; [exact Hin | ].
  exact (registered_transitions_use_declared_easing _ _ Hin).
Defined.

(** X10: however often a host invokes the plugin, each invocation makes
    exactly one call of the host's [addUtilities], always with the same
    mapping: after [n] invocations the host is in the state [n] calls
    leave, and the record of calls has grown by [n] copies of the
    mapping. *)
Theorem plugin_invocations_accumulate {S : Type}
    (handler : data → S → S) (s : S) (calls : list data) (n : nat) :
  Nat.iter n (plugin_0 (S * list data)%type (traced handler)) (s, calls)
  = (Nat.iter n (handler newUtilities) s,
     calls ++ replicate n newUtilities).
Proof.
  induction n as [ | n IH].
  - simpl. by rewrite app_nil_r.
  - rewrite !Nat.iter_succ, IH, replicate_S_end, app_assoc. reflexivity.
Qed.

(** ** Shadows *)

(** X11: every box shadow of the table is a drop straight down: no
    horizontal offset, a positive vertical offset, a blur radius of
    twice that offset, and black at an opacity above 0 and of at most
    0.15; only [xl] sets a spread radius, of -8px. *)
Theorem box_shadows_shape (name : string) (v : jsval) :
  (name, v) ∈ entries boxShadow →
  ∃ (sh : shadow) (opacity : Q),
    shadow_entry v = Some (sh, opacity)
    ∧ offset_x sh = 0%Z
    ∧ (0 < offset_y sh)%Z
    ∧ blur sh = (2 * offset_y sh)%Z
    ∧ rgba_components (shadow_color sh)
      = Some [0 # 1; 0 # 1; 0 # 1; opacity]%Q
    ∧ (0 < opacity)%Q
    ∧ (opacity <= 15 # 100)%Q
    ∧ spread sh = (if String.eqb name "xl" then Some (-8)%Z else None).
Proof.
  intros Hin. unfold boxShadow in Hin. simpl in Hin.
  elem_cases Hin; eexists _, _;
    (split; [reflexivity | ]); simpl;
    repeat (split; [first [reflexivity | discriminate] | ]);
    reflexivity.
Qed.

(** The theorem at the shadow [xl]. *)
Lemma box_shadows_shape_witness :
  ("xl", VStr "0 20px 40px -8px rgba(0, 0, 0, 0.15)") ∈ entries boxShadow
  ∧ ∃ (sh : shadow) (opacity : Q),
      shadow_entry (VStr "0 20px 40px -8px rgba(0, 0, 0, 0.15)" : jsval)
        = Some (sh, opacity)
      ∧ offset_x sh = 0%Z
      ∧ (0 < offset_y sh)%Z
      ∧ blur sh = (2 * offset_y sh)%Z
      ∧ rgba_components (shadow_color sh)
        = Some [0 # 1; 0 # 1; 0 # 1; opacity]%Q
      ∧ (0 < opacity)%Q
      ∧ (opacity <= 15 # 100)%Q
      ∧ spread sh = (if String.eqb "xl" "xl" then Some (-8)%Z else None).
Proof.
  assert (Hin : ("xl", VStr "0 20px 40px -8px rgba(0, 0, 0, 0.15)")
                  ∈ entries boxShadow)
    by (unfold boxShadow; simpl; elem_here).
  split; [exact Hin | exact (box_shadows_shape _ _ Hin)].
Defined.

Lemma shadow_scale_eq :
  shadow_scale boxShadow
  = Some
      [ ({| offset_x := 0; offset_y := 2; blur := 4; spread := None;
            shadow_color := "rgba(0, 0, 0, 0.08)" |}, 8 # 100);
        ({| offset_x := 0; offset_y := 4; blur := 8; spread := None;
            shadow_color := "rgba(0, 0, 0, 0.1)" |}, 1 # 10);
        ({| offset_x := 0; offset_y := 6; blur := 12; spread := None;
            shadow_color := "rgba(0, 0, 0, 0.12)" |}, 12 # 100);
        ({| offset_x := 0; offset_y := 12; blur := 24; spread := None;
            shadow_color := "rgba(0, 0, 0, 0.15)" |}, 15 # 100);
        ({| offset_x := 0; offset_y := 20; blur := 40;
            spread := Some (-8)%Z;
            shadow_color := "rgba(0, 0, 0, 0.15)" |}, 15 # 100) ]%Q.
Proof. vm_compute. reflexivity. Qed.

(** X12: in the order of the literal, sm to xl, the shadows rise: the
    vertical offset and the blur radius strictly increase and the
    opacity never decreases. *)
Theorem box_shadows_rise :
  ∃ scale : list (shadow * Q),
    shadow_scale boxShadow = Some scale
    ∧ length scale = length (entries boxShadow)
    ∧ StronglySorted
        (λ a b, (offset_y a.1 < offset_y b.1)%Z
                ∧ (blur a.1 < blur b.1)%Z
                ∧ (a.2 <= b.2)%Q) scale.
Proof.
  eexists. split; [apply shadow_scale_eq | split; [reflexivity | ]].
  repeat (constructor;
          [ | repeat (constructor;
                      [ split; [reflexivity | split; [reflexivity | discriminate]]
                      | ]);
              constructor ]).
  constructor.
Qed.

(** ** The scanned files, continued *)

Lemma append_assoc (a b c : string) :
  ((a +:+ b) +:+ c = a +:+ (b +:+ c))%string.
Proof.
  induction a as [ | x a IH]; [reflexivity | ].
  change (String x ((a +:+ b) +:+ c) = String x (a +:+ (b +:+ c)))%string.
  by rewrite IH.
Qed.

Lemma strip_prefix_Some (a s r : string) :
  strip_prefix a s = Some r → s = (a +:+ r)%string.
Proof.
  revert s. induction a as [ | x a IH]; intros s; simpl.
  - by intros [= ->].
  - destruct s as [ | y s]; [discriminate | ].
    destruct (Ascii.eqb x y) eqn:Hxy; [ | discriminate].
    apply Ascii.eqb_eq in Hxy as ->. intros Hr. by rewrite (IH _ Hr).
Qed.

(** A path matched by literals followed by more parts starts with the
    literal text, and what follows it is matched by the other parts. *)
Lemma parts_match_literal_prefix (a : string) (ps : list glob_part)
    (s : string) :
  parts_match (literal_parts a ++ ps) s = true →
  ∃ r : string, s = (a +:+ r)%string ∧ parts_match ps r = true.
Proof.
  revert s. induction a as [ | x a IH]; intros s; simpl.
  - intros H. by exists s.
  - destruct s as [ | y s]; [discriminate | ].
    intros H. apply andb_true_iff in H as [Hxy H].
    apply Ascii.eqb_eq in Hxy as ->.
    destruct (IH _ H) as (r & -> & Hr). by exists r.
Qed.

Lemma parts_match_nil (s : string) :
  parts_match [] s = true → s = EmptyString.
Proof. simpl. by intros H%String.eqb_eq. Qed.

(** A path matched by a star followed by more parts ends in a piece
    that the other parts match. *)
Lemma parts_match_star (ps : list glob_part) (s : string) :
  parts_match (GStar :: ps) s = true →
  ∃ s1 s2 : string, s = (s1 +:+ s2)%string ∧ parts_match ps s2 = true.
Proof.
  induction s as [ | a s IH]; simpl; intros H.
  - apply orb_true_iff in H as [H | H]; [ | discriminate].
    by exists EmptyString, EmptyString.
  - apply orb_true_iff in H as [H | H].
    + by exists EmptyString, (String a s).
    + apply andb_true_iff in H as [_ H].
      destruct (IH H) as (s1 & s2 & -> & H2).
      by exists (String a s1), s2.
Qed.

(** The same for the part that stands for any number of directories. *)
Lemma parts_match_dirs (ps : list glob_part) (s : string) :
  parts_match (GDirs :: ps) s = true →
  ∃ s1 s2 : string, s = (s1 +:+ s2)%string ∧ parts_match ps s2 = true.
Proof.
  simpl. intros H. apply orb_true_iff in H as [H | H].
  { by exists EmptyString, s. }
  induction s as [ | a s IH]; [discriminate | ].
  apply orb_true_iff in H as [H | H].
  - apply andb_true_iff in H as [_ H].
    by exists (String a EmptyString), s.
  - destruct (IH H) as (s1 & s2 & -> & H2). by exists (String a s1), s2.
Qed.

Lemma parts_match_extension (s : string) :
  parts_match [GLit "."; GAlt ["html"; "js"]] s = true →
  s = ".html" ∨ s = ".js".
Proof.
  change [GLit "."; GAlt ["html"; "js"]]
    with (literal_parts "." ++ [GAlt ["html"; "js"]]).
  intros H. apply parts_match_literal_prefix in H as (r & -> & H).
  cbn [parts_match existsb] in H. rewrite orb_false_r in H.
  apply orb_true_iff in H as [H | H].
  - destruct (strip_prefix "html" r) as [r' | ] eqn:Hr; [ | discriminate].
    apply strip_prefix_Some in Hr as ->. apply String.eqb_eq in H as ->.
    by left.
  - destruct (strip_prefix "js" r) as [r' | ] eqn:Hr; [ | discriminate].
    apply strip_prefix_Some in Hr as ->. apply String.eqb_eq in H as ->.
    by right.
Qed.

(** A pattern of the form [dir/**/*.{html,js}] matches only files below
    [dir/] that end in .html or .js. *)
Lemma parts_match_below (dir s : string) :
  parts_match
    (literal_parts dir ++ [GDirs; GStar; GLit "."; GAlt ["html"; "js"]]) s
  = true →
  ∃ rest ext : string,
    s = (dir +:+ rest +:+ ext)%string ∧ (ext = ".html" ∨ ext = ".js").
Proof.
  intros H. apply parts_match_literal_prefix in H as (r & -> & H).
  apply parts_match_dirs in H as (s1 & s2 & -> & H).
  apply parts_match_star in H as (s3 & s4 & -> & H).
  apply parts_match_extension in H.
  exists (s1 +:+ s3)%string, s4. split; [ | exact H].
  by rewrite append_assoc.
Qed.

(** X13: what the patterns of [content] let the generator scan.  A path
    matched by one of them is an .html file, or it is a file below
    pages/ or components/ that ends in .js; so no JavaScript file
    outside these two directories is scanned, and no file of another
    kind anywhere. *)
Theorem scanned_files_are_html_or_js
    (patterns : list string) (pattern path : string) :
  get "content" module_exports ≫= as_strings = Some patterns →
  pattern ∈ patterns →
  glob_match pattern path = true →
  (∃ stem : string, unrooted path = (stem +:+ ".html")%string)
  ∨ ∃ dir rest : string,
      dir ∈ ["pages/"; "components/"]
      ∧ unrooted path = (dir +:+ rest +:+ ".js")%string.
Proof.
  intros Hpatterns Hin Hmatch. vm_compute in Hpatterns.
  injection Hpatterns as <-. unfold glob_match in Hmatch.
  elem_cases Hin.
  - change (glob_parts "./pages/**/*.{html,js}")
      with (literal_parts "pages/"
              ++ [GDirs; GStar; GLit "."; GAlt ["html"; "js"]]) in Hmatch.
    apply parts_match_below in Hmatch as (rest & ext & -> & [-> | ->]).
    + left. exists ("pages/" +:+ rest)%string. by rewrite append_assoc.
    + right. exists "pages/", rest. split; [elem_here | reflexivity].
  - change (glob_parts "./components/**/*.{html,js}")
      with (literal_parts "components/"
              ++ [GDirs; GStar; GLit "."; GAlt ["html"; "js"]]) in Hmatch.
    apply parts_match_below in Hmatch as (rest & ext & -> & [-> | ->]).
    + left. exists ("components/" +:+ rest)%string. by rewrite append_assoc.
    + right. exists "components/", rest. split; [elem_here | reflexivity].
  - change (glob_parts "./index.html")
      with (literal_parts "index.html" ++ []) in Hmatch.
    apply parts_match_literal_prefix in Hmatch as (r & -> & Hr).
    apply parts_match_nil in Hr as ->. left. by exists "index".
  - change (glob_parts "./*.html")
      with (GStar :: literal_parts ".html" ++ []) in Hmatch.
    apply parts_match_star in Hmatch as (s1 & s2 & -> & H).
    apply parts_match_literal_prefix in H as (r & -> & Hr).
    apply parts_match_nil in Hr as ->. left. by exists s1.
Qed.

(** The theorem at the pattern for pages/ and a script two levels down. *)
Lemma scanned_files_are_html_or_js_witness :
  (get "content" module_exports ≫= as_strings
   = Some ["./pages/**/*.{html,js}"; "./components/**/*.{html,js}";
           "./index.html"; "./*.html"]
   ∧ "./pages/**/*.{html,js}"
       ∈ ["./pages/**/*.{html,js}"; "./components/**/*.{html,js}";
          "./index.html"; "./*.html"]
   ∧ glob_match "./pages/**/*.{html,js}" "./pages/admin/users/list.js" = true)
  ∧ ((∃ stem : string,
        unrooted "./pages/admin/users/list.js" = (stem +:+ ".html")%string)
     ∨ ∃ dir rest : string,
         dir ∈ ["pages/"; "components/"]
         ∧ unrooted "./pages/admin/users/list.js"
           = (dir +:+ rest +:+ ".js")%string).
Proof.
  assert (Hin : "./pages/**/*.{html,js}"
                  ∈ ["./pages/**/*.{html,js}"; "./components/**/*.{html,js}";
                     "./index.html"; "./*.html"]) by elem_here.
  split; [repeat split; [exact Hin] | ].
  exact (scanned_files_are_html_or_js
           _ _ "./pages/admin/users/list.js" eq_refl Hin eq_refl).
Defined.

(** ** Lightness of the palette *)

(** The member a two-step path goes through is an entry of the value. *)
Lemma get_path_through {F} (a b : string) (v x : value F) :
  get_path [a; b] v = Some x →
  ∃ m : value F, (a, m) ∈ entries v ∧ get b m = Some x.
Proof.
  cbn [get_path]. intros H.
  apply bind_Some in H as (m & Hm & H).
  apply bind_Some in H as (y & Hy & [= ->]).
  exists m. split; [by apply get_is_entry | exact Hy].
Qed.

(** X14: in every family that has numbered shades, the shades darken as
    the number rises: from 50 to 900 each shade has a strictly lower luma
    than the one before. *)
Theorem shades_darken (name : string) :
  is_Some (get_path [name; "50"] colors) →
  ∃ lumas : list Z,
    shade_lumas name = Some lumas
    ∧ length lumas = length shade_numbers
    ∧ StronglySorted Z.gt lumas.
Proof.
  intros [x Hx]. apply get_path_through in Hx as (fam & Hin & Hget).
  unfold colors in Hin. simpl in Hin.
  elem_cases Hin; try discriminate Hget;
    (eexists; split; [vm_compute; reflexivity | split; [reflexivity | ]];
     repeat (constructor;
             [ | repeat (constructor; [reflexivity | ]); constructor ]);
     constructor).
Qed.

(** The theorem at the family [success]. *)
Lemma shades_darken_witness :
  is_Some (get_path ["success"; "50"] colors)
  ∧ ∃ lumas : list Z,
      shade_lumas "success" = Some lumas
      ∧ length lumas = length shade_numbers
      ∧ StronglySorted Z.gt lumas.
Proof.
  assert (H50 : is_Some (get_path ["success"; "50"] colors))
    by (by eexists).
  split; [exact H50 | exact (shades_darken "success" H50)].
Defined.

(** X15: wherever a family declares a foreground, the foreground and the
    [DEFAULT] color of the family are far apart in lightness: their lumas
    differ by more than 120 of the 255 levels. *)
Theorem foreground_apart_from_default (name : string) (fg : jsval) :
  get_path [name; "foreground"] colors = Some fg →
  ∃ lf ld : Z,
    member_luma name "foreground" = Some lf
    ∧ member_luma name "DEFAULT" = Some ld
    ∧ (120 * 10000 < Z.abs (lf - ld))%Z.
Proof.
  intros Hfg. apply get_path_through in Hfg as (fam & Hin & Hget).
  unfold colors in Hin. simpl in Hin.
  elem_cases Hin; try discriminate Hget;
    (eexists _, _;
     split; [vm_compute; reflexivity | split; [vm_compute; reflexivity | ]];
     reflexivity).
Qed.

(** The theorem at the family [accent]. *)
Lemma foreground_apart_from_default_witness :
  get_path ["accent"; "foreground"] colors = Some (VStr "#1F2937")
  ∧ ∃ lf ld : Z,
      member_luma "accent" "foreground" = Some lf
      ∧ member_luma "accent" "DEFAULT" = Some ld
      ∧ (120 * 10000 < Z.abs (lf - ld))%Z.
Proof.
  split; [reflexivity | ].
  exact (foreground_apart_from_default "accent" (VStr "#1F2937") eq_refl).
Defined.
